(** * Multilingo-SmarBot: the cached generate-then-translate resolver

    A shallow embedding of [main.py].  The module-level dictionary
    [response_cache] is a [gmap string string]; the two remote services
    ([llm.invoke] and [GoogleTranslator(...).translate]) are functions over an
    abstract world, so that two calls with the same arguments may answer
    differently; every call to a service and every [print] is appended to a
    trace, which is what the call-counting statements are about.

    Python [str] values are modelled as [string], and the exceptions of the
    services as the outcomes the [except] clauses tell apart (exceptions
    outside the class [Exception], which no clause catches, are left out). *)

From Stdlib Require Import Ascii String.
From stdpp Require Import base strings gmap list.

Open Scope string_scope.

(** ** Outcomes of the remote services and observable events *)

(** [llm.invoke(prompt).content]: the text of the answer, or one of the two
    exception classes the source distinguishes.  The argument of a raising
    outcome is [str(e)], which the handlers print. *)
Inductive llm_outcome : Type :=
| LlmContent (content : string)
| LlmResourceExhausted (e : string)
| LlmException (e : string).

(** [GoogleTranslator(source="auto", target=t).translate(text)]. *)
Inductive translate_outcome : Type :=
| Translated (text : string)
| TranslateException (e : string).

Inductive event : Type :=
| EvLlmInvoke (prompt : string)
| EvTranslate (target text : string)
| EvPrint (line : string).

Definition is_llm_invoke (e : event) : bool :=
  match e with EvLlmInvoke _ => true | _ => false end.

Definition is_translate (e : event) : bool :=
  match e with EvTranslate _ _ => true | _ => false end.

Fixpoint count_events (p : event → bool) (t : list event) : nat :=
  match t with
  | [] => 0
  | e :: t' => (if p e then 1 else 0) + count_events p t'
  end.

(** ** Program state *)

Record state (World : Type) : Type := State {
  response_cache : gmap string string;
  world : World;
  trace : list event
}.
Arguments State {World} _ _ _.
Arguments response_cache {World} _.
Arguments world {World} _.
Arguments trace {World} _.

Definition llm_calls {World} (s : state World) : nat :=
  count_events is_llm_invoke (trace s).

Definition translate_calls {World} (s : state World) : nat :=
  count_events is_translate (trace s).

(** The program at start-up: [response_cache = {}] and nothing done yet. *)
Definition initial_state {World} (w : World) : state World :=
  State ∅ w [].

(** ** Constants of the module *)

(** [LANG_MAP = {"en": "en", "hi": "hi", "gu": "gu", "ta": "ta", "mr": "mr"}] *)
Definition LANG_MAP : gmap string string :=
  <["en" := "en"]> (<["hi" := "hi"]> (<["gu" := "gu"]>
    (<["ta" := "ta"]> (<["mr" := "mr"]> ∅)))).

Definition quota_apology : string :=
  "Sorry, the API quota is exceeded. Try again later.".

Definition connection_apology : string :=
  "Sorry, I'm having trouble connecting right now.".

Definition enter_question : string := "Please enter a question.".

(** [f"{user_query}_{language}"] *)
Definition make_key (user_query language : string) : string :=
  user_query +:+ "_" +:+ language.

Definition newline : string := String (ascii_of_nat 10) "".

(** The f-string of the prompt; [kb] is [json.dumps(knowledge_base, indent=2)]. *)
Definition make_prompt (kb user_query : string) : string :=
  newline +:+
  "You are a helpful University support chatbot. " +:+ newline +:+
  "Answer ONLY using the knowledge base. If the answer is not found, politely say you don't know."
    +:+ newline +:+
  newline +:+
  "Knowledge Base:" +:+ newline +:+
  kb +:+ newline +:+
  newline +:+
  "User Query: " +:+ user_query +:+ newline.

(** Does the string contain the separator of [make_key]? *)
Fixpoint has_underscore (s : string) : bool :=
  match s with
  | "" => false
  | String c s' => if decide (c = "_"%char) then true else has_underscore s'
  end.

(** Python truthiness of [request.form.get("user_query")]: [None] and the
    empty string are false, every other string is true. *)
Definition truthy (v : option string) : bool :=
  match v with
  | None => false
  | Some "" => false
  | Some (String _ _) => true
  end.

(** [jsonify({"response": text})] *)
Record json_response : Type := Jsonify { response : string }.

(** The two fields of [request.form] the handler reads. *)
Record form : Type := Form {
  form_user_query : option string;
  form_language : option string
}.

(** ** The state monad of the handlers *)

Section Program.
Context {World : Type}.
(** [json.dumps(knowledge_base, indent=2)], fixed at start-up. *)
Variable knowledge_base : string.
Variable llm : World → string → llm_outcome * World.
Variable GoogleTranslator : World → string → string → translate_outcome * World.

Definition M (A : Type) : Type := state World → A * state World.

#[local] Instance M_ret : MRet M := λ A (a : A) s, (a, s).
#[local] Instance M_bind : MBind M :=
  λ A B (f : A → M B) (m : M A) s, let '(a, s') := m s in f a s'.

(** [response_cache.get(key)] as used by [key in response_cache] followed
    by [response_cache[key]]. *)
Definition cache_get (key : string) : M (option string) :=
  λ s, (response_cache s !! key, s).

(** [response_cache[key] = value] *)
Definition cache_put (key value : string) : M unit :=
  λ s, (tt, State (<[key := value]> (response_cache s)) (world s) (trace s)).

Definition print (line : string) : M unit :=
  λ s, (tt, State (response_cache s) (world s) (trace s ++ [EvPrint line])).

Definition llm_invoke (prompt : string) : M llm_outcome :=
  λ s, let '(o, w) := llm (world s) prompt in
       (o, State (response_cache s) w (trace s ++ [EvLlmInvoke prompt])).

Definition translator_translate (target text : string) : M translate_outcome :=
  λ s, let '(o, w) := GoogleTranslator (world s) target text in
       (o, State (response_cache s) w (trace s ++ [EvTranslate target text])).

(** The [try] block around [llm.invoke] with its two handlers. *)
Definition english_from_llm (user_query : string) : M string :=
  o ← llm_invoke (make_prompt knowledge_base user_query);
  match o with
  | LlmContent content => mret content
  | LlmResourceExhausted e =>
      _ ← print ("Gemini quota exceeded! Details: " +:+ e);
      mret quota_apology
  | LlmException e =>
      _ ← print ("Error calling Gemini API: " +:+ e);
      mret connection_apology
  end.

(** The [try] block around the translator with its handler. *)
Definition translate_or_keep (target_lang english_response : string) : M string :=
  o ← translator_translate target_lang english_response;
  match o with
  | Translated text => mret text
  | TranslateException e =>
      _ ← print ("Translation failed for " +:+ target_lang +:+ ": " +:+ e);
      mret english_response
  end.

Definition generate_response_with_gemini (user_query language : string) : M string :=
  let cache_key := make_key user_query language in
  hit ← cache_get cache_key;
  match hit with
  | Some cached => mret cached
  | None =>
      let english_key := make_key user_query "en" in
      hit_en ← cache_get english_key;
      english_response ←
        match hit_en with
        | Some cached => mret cached
        | None =>
            r ← english_from_llm user_query;
            _ ← cache_put english_key r;
            mret r
        end;
      if decide (language = "en") then
        _ ← cache_put cache_key english_response;
        mret english_response
      else
        let target_lang := default "en" (LANG_MAP !! language) in
        let translation_key := make_key user_query target_lang in
        hit_tr ← cache_get translation_key;
        translated_response ←
          match hit_tr with
          | Some cached => mret cached
          | None =>
              r ← translate_or_keep target_lang english_response;
              _ ← cache_put translation_key r;
              mret r
          end;
        _ ← cache_put cache_key translated_response;
        mret translated_response
  end.

(** *** The two stages of the resolver, named on their own

    [english_stage] is lines 47-69 of [main.py] and [translation_stage] is
    lines 77-87; [generate_response_with_gemini_stages] shows that the
    resolver is their composition. *)
Definition english_stage (user_query : string) : M string :=
  let english_key := make_key user_query "en" in
  hit_en ← cache_get english_key;
  match hit_en with
  | Some cached => mret cached
  | None =>
      r ← english_from_llm user_query;
      _ ← cache_put english_key r;
      mret r
  end.

Definition translation_stage (user_query language english_response : string)
  : M string :=
  let target_lang := default "en" (LANG_MAP !! language) in
  let translation_key := make_key user_query target_lang in
  hit_tr ← cache_get translation_key;
  match hit_tr with
  | Some cached => mret cached
  | None =>
      r ← translate_or_keep target_lang english_response;
      _ ← cache_put translation_key r;
      mret r
  end.

(** The resolver after a miss on [cache_key] (lines 46-90). *)
Definition resolve_miss (user_query language : string) : M string :=
  english_response ← english_stage user_query;
  if decide (language = "en") then
    _ ← cache_put (make_key user_query language) english_response;
    mret english_response
  else
    translated_response ← translation_stage user_query language english_response;
    _ ← cache_put (make_key user_query language) translated_response;
    mret translated_response.

(** The [/chat] route. *)
Definition chat (request_form : form) : M json_response :=
  let user_query := form_user_query request_form in
  let language := default "en" (form_language request_form) in
  if negb (truthy user_query) then
    mret (Jsonify enter_question)
  else
    response_text ← generate_response_with_gemini (default "" user_query) language;
    mret (Jsonify response_text).

(** A sequence of resolver calls, each given as (query, language). *)
Fixpoint run (calls : list (string * string)) (s : state World) : state World :=
  match calls with
  | [] => s
  | (q, l) :: rest => run rest (generate_response_with_gemini q l s).2
  end.

End Program.

Arguments generate_response_with_gemini {World} _ _ _ _ _ _.
Arguments chat {World} _ _ _ _ _.
Arguments run {World} _ _ _ _ _.

(** ** The language codes the specification calls supported *)

Definition supported_codes : list string := ["en"; "hi"; "gu"; "ta"; "mr"].

(** ** Sample services, used to run the program on concrete requests *)

(** A scripted model: the world is the list of outcomes still to come, and
    every call consumes the next one, whatever the prompt. *)
Definition scripted_llm (w : list llm_outcome) (prompt : string)
  : llm_outcome * list llm_outcome :=
  match w with
  | [] => (LlmException "script exhausted", [])
  | o :: w' => (o, w')
  end.

(** A translator that marks the text with the target code. *)
Definition tagging_translator {W : Type} (w : W) (target text : string)
  : translate_outcome * W :=
  (Translated ("[" +:+ target +:+ "] " +:+ text), w).

(** A translator that is down. *)
Definition failing_translator {W : Type} (w : W) (target text : string)
  : translate_outcome * W :=
  (TranslateException "connection refused", w).

Definition sample_kb : string := "{}".

(** Two answers of the model, for a question about exams and one about the
    date sheet. *)
Definition exam_script : list llm_outcome :=
  [LlmContent "Exams start in May."; LlmContent "The date sheet is on the portal."].

(** The state after the single request (exam, date_xx) on a fresh process. *)
Definition after_exam_request : state (list llm_outcome) :=
  run sample_kb scripted_llm tagging_translator [("exam", "date_xx")]
    (initial_state exam_script).

(** A state in which only the English answer about the library is cached. *)
Definition library_cached : state (list llm_outcome) :=
  State (<[make_key "library hours" "en" := "Open 9 to 5."]> ∅) [] [].

(** ** Notions used to state the properties *)

(** A cache is coherent when every entry filed under an unsupported,
    underscore-free language code repeats the English entry of its query. *)
Definition coherent (cache : gmap string string) : Prop :=
  ∀ q l v,
    has_underscore l = false →
    LANG_MAP !! l = None →
    cache !! make_key q l = Some v →
    cache !! make_key q "en" = Some v.

(** Every call of the list names a language code without underscore. *)
Definition underscore_free_calls (calls : list (string * string)) : Prop :=
  Forall (λ c, has_underscore c.2 = false) calls.

(** Unfolds the monad and its primitive operations. *)
Ltac unfold_monad :=
  unfold mbind, M_bind, mret, M_ret, cache_get, cache_put, print,
    llm_invoke, translator_translate.

(** * Properties *)

(** ** Strings and keys *)

Lemma count_events_app (p : event → bool) (t1 t2 : list event) :
  count_events p (t1 ++ t2) = count_events p t1 + count_events p t2.
Proof.
  induction t1 as [|e t1 IH]; simpl; [done|]. rewrite IH. lia.
Qed.

Lemma append_String (c : ascii) (a b : string) :
  String c a +:+ b = String c (a +:+ b).
Proof. reflexivity. Qed.

Lemma has_underscore_sep (a b : string) :
  has_underscore (a +:+ "_" +:+ b) = true.
Proof.
  induction a as [|c a IH].
  - reflexivity.
  - rewrite append_String. simpl. by case_decide.
Qed.

Lemma make_key_String (c : ascii) (q l : string) :
  make_key (String c q) l = String c (make_key q l).
Proof. reflexivity. Qed.

(** Two keys of the same query differ exactly when the language codes do. *)
Lemma make_key_inj_language (q l1 l2 : string) :
  make_key q l1 = make_key q l2 → l1 = l2.
Proof.
  unfold make_key. intros H.
  apply (inj (String.append q)) in H.
  by apply (inj (String.append "_")) in H.
Qed.

(** When two keys coincide, either the pairs are equal or the shorter query
    is continued, after an underscore, inside the longer one, and the rest
    sits at the front of the other language code. *)
Lemma make_key_eq_cases (q1 l1 q2 l2 : string) :
  make_key q1 l1 = make_key q2 l2 →
  (q1 = q2 ∧ l1 = l2)
  ∨ (∃ m, q1 = make_key q2 m ∧ l2 = make_key m l1)
  ∨ (∃ m, q2 = make_key q1 m ∧ l1 = make_key m l2).
Proof.
  revert q2. induction q1 as [|c q1 IH]; intros [|d q2] H.
  - left. split; [done|]. by apply (make_key_inj_language "").
  - right; right. rewrite make_key_String in H.
    injection H as Hd H. subst d. exists q2. split; [reflexivity|exact H].
  - right; left. rewrite make_key_String in H.
    injection H as Hc H. subst c. exists q1. split; [reflexivity|]. by symmetry.
  - rewrite !make_key_String in H. injection H as Hc H. subst d.
    destruct (IH _ H) as [[-> ->]|[[m [-> ->]]|[m [-> ->]]]].
    + by left.
    + right; left. by exists m.
    + right; right. by exists m.
Qed.

Lemma make_key_eq_underscore_free (q1 l1 q2 l2 : string) :
  has_underscore l1 = false →
  has_underscore l2 = false →
  make_key q1 l1 = make_key q2 l2 →
  q1 = q2 ∧ l1 = l2.
Proof.
  intros H1 H2 H.
  destruct (make_key_eq_cases _ _ _ _ H) as [?|[[m [_ ->]]|[m [_ ->]]]]; [done|..].
  - unfold make_key in H2. by rewrite has_underscore_sep in H2.
  - unfold make_key in H1. by rewrite has_underscore_sep in H1.
Qed.

(** ** The language table *)

Lemma LANG_MAP_lookup_Some (l t : string) :
  LANG_MAP !! l = Some t → t = l ∧ l ∈ supported_codes.
Proof.
  unfold LANG_MAP, supported_codes. intros H.
  repeat (apply lookup_insert_Some in H as [[<- <-]|[_ H]];
          [split; [done|set_solver]|]).
  by rewrite lookup_empty in H.
Qed.

Lemma LANG_MAP_lookup_None (l : string) :
  LANG_MAP !! l = None ↔ l ∉ supported_codes.
Proof.
  split.
  - intros H Hin. unfold supported_codes in Hin.
    repeat (apply elem_of_cons in Hin as [->|Hin]; [by vm_compute in H|]).
    by apply elem_of_nil in Hin.
  - intros Hn. destruct (LANG_MAP !! l) as [t|] eqn:E; [|done].
    by apply LANG_MAP_lookup_Some in E as [_ ?].
Qed.

Lemma supported_underscore_free (l : string) :
  l ∈ supported_codes → has_underscore l = false.
Proof.
  unfold supported_codes. intros Hin.
  repeat (apply elem_of_cons in Hin as [->|Hin]; [reflexivity|]).
  by apply elem_of_nil in Hin.
Qed.

Lemma target_lang_supported (language : string) :
  default "en" (LANG_MAP !! language) ∈ supported_codes.
Proof.
  destruct (LANG_MAP !! language) as [t|] eqn:E; simpl.
  - by apply LANG_MAP_lookup_Some in E as [-> ?].
  - unfold supported_codes. set_solver.
Qed.

(** ** More on keys and prompts *)

Lemma length_append (a b : string) :
  String.length (a +:+ b) = String.length a + String.length b.
Proof.
  induction a as [|c a IH]; [done|]. rewrite append_String. simpl. by rewrite IH.
Qed.

Lemma append_assoc (a b c : string) : (a +:+ b) +:+ c = a +:+ b +:+ c.
Proof.
  induction a as [|x a IH]; [done|]. rewrite !append_String. by rewrite IH.
Qed.

Lemma append_inj_r (a b c : string) : a +:+ c = b +:+ c → a = b.
Proof.
  revert b. induction a as [|x a IH]; intros [|y b] H.
  - done.
  - apply (f_equal String.length) in H. rewrite !length_append in H.
    simpl in H. lia.
  - apply (f_equal String.length) in H. rewrite !length_append in H.
    simpl in H. lia.
  - rewrite !append_String in H. injection H as -> H. f_equal. by apply IH.
Qed.

Lemma length_make_key (q l : string) :
  String.length (make_key q l) = String.length q + 1 + String.length l.
Proof. unfold make_key. rewrite !length_append. simpl. lia. Qed.

Lemma make_key_assoc (q m l : string) :
  make_key q (make_key m l) = make_key (make_key q m) l.
Proof. unfold make_key. by rewrite !append_assoc. Qed.

(** X16: two requests whose language codes have the same length never share
    a key; this covers requests in the same language, and any two of the
    supported codes. *)
Theorem make_key_injective_same_length (q1 l1 q2 l2 : string) :
  String.length l1 = String.length l2 →
  make_key q1 l1 = make_key q2 l2 →
  q1 = q2 ∧ l1 = l2.
Proof.
  intros Hlen H.
  destruct (make_key_eq_cases _ _ _ _ H) as [?|[[m [_ ->]]|[m [_ ->]]]]; [done|..];
    rewrite length_make_key in Hlen; lia.
Qed.

(** X17: for a fixed knowledge base, the prompt determines the query: two
    different queries are never sent to the model as the same prompt. *)
Theorem make_prompt_injective (kb q1 q2 : string) :
  make_prompt kb q1 = make_prompt kb q2 → q1 = q2.
Proof.
  unfold make_prompt. intros H.
  repeat match type of H with
         | ?a +:+ _ = ?a +:+ _ => apply (inj (String.append a)) in H
         end.
  by apply append_inj_r in H.
Qed.

Section Resolver.
Context {World : Type}.
Variable knowledge_base : string.
Variable llm : World → string → llm_outcome * World.
Variable GoogleTranslator : World → string → string → translate_outcome * World.

Abbreviation resolve :=
  (generate_response_with_gemini knowledge_base llm GoogleTranslator).
Abbreviation generate := (english_from_llm knowledge_base llm).
Abbreviation translate := (translate_or_keep GoogleTranslator).
Abbreviation stage_en := (english_stage knowledge_base llm).
Abbreviation stage_tr := (translation_stage GoogleTranslator).
Abbreviation miss := (resolve_miss knowledge_base llm GoogleTranslator).

Implicit Types (s : state World) (q l a : string).

Lemma resolve_stages q l s :
  resolve q l s =
    match response_cache s !! make_key q l with
    | Some cached => (cached, s)
    | None => miss q l s
    end.
Proof.
  unfold generate_response_with_gemini, resolve_miss, english_stage,
    translation_stage.
  unfold mbind at 1. unfold M_bind at 1. unfold cache_get at 1.
  by destruct (response_cache s !! make_key q l).
Qed.

Lemma resolve_hit q l s v :
  response_cache s !! make_key q l = Some v → resolve q l s = (v, s).
Proof. intros H. by rewrite resolve_stages, H. Qed.

(** *** The generation call *)

Lemma generate_cache q s :
  response_cache (generate q s).2 = response_cache s.
Proof.
  unfold english_from_llm. unfold_monad.
  destruct (llm (world s) _) as [[c|e|e] w]; reflexivity.
Qed.

Lemma generate_llm_calls q s :
  llm_calls (generate q s).2 = S (llm_calls s).
Proof.
  unfold english_from_llm, llm_calls. unfold_monad.
  destruct (llm (world s) _) as [[c|e|e] w]; simpl;
    rewrite ?count_events_app; simpl; lia.
Qed.

Lemma generate_translate_calls q s :
  translate_calls (generate q s).2 = translate_calls s.
Proof.
  unfold english_from_llm, translate_calls. unfold_monad.
  destruct (llm (world s) _) as [[c|e|e] w]; simpl;
    rewrite ?count_events_app; simpl; lia.
Qed.

Lemma generate_quota q s e w :
  llm (world s) (make_prompt knowledge_base q) = (LlmResourceExhausted e, w) →
  (generate q s).1 = quota_apology.
Proof.
  intros H. unfold english_from_llm. unfold_monad. by rewrite H.
Qed.

(** *** The translation call *)

Lemma translate_cache t a s :
  response_cache (translate t a s).2 = response_cache s.
Proof.
  unfold translate_or_keep. unfold_monad.
  destruct (GoogleTranslator (world s) _ _) as [[c|e] w]; reflexivity.
Qed.

Lemma translate_llm_calls t a s :
  llm_calls (translate t a s).2 = llm_calls s.
Proof.
  unfold translate_or_keep, llm_calls. unfold_monad.
  destruct (GoogleTranslator (world s) _ _) as [[c|e] w]; simpl;
    rewrite ?count_events_app; simpl; lia.
Qed.

Lemma translate_translate_calls t a s :
  translate_calls (translate t a s).2 = S (translate_calls s).
Proof.
  unfold translate_or_keep, translate_calls. unfold_monad.
  destruct (GoogleTranslator (world s) _ _) as [[c|e] w]; simpl;
    rewrite ?count_events_app; simpl; lia.
Qed.

Lemma translate_exception t a s e w :
  GoogleTranslator (world s) t a = (TranslateException e, w) →
  (translate t a s).1 = a.
Proof.
  intros H. unfold translate_or_keep. unfold_monad. by rewrite H.
Qed.

(** *** The English stage *)

Lemma stage_en_cached q s a :
  response_cache s !! make_key q "en" = Some a → stage_en q s = (a, s).
Proof.
  intros H. unfold english_stage. unfold mbind at 1. unfold M_bind at 1.
  unfold cache_get at 1. by rewrite H.
Qed.

Lemma stage_en_fresh q s :
  response_cache s !! make_key q "en" = None →
  stage_en q s =
    ((generate q s).1,
     State (<[make_key q "en" := (generate q s).1]> (response_cache s))
           (world (generate q s).2) (trace (generate q s).2)).
Proof.
  intros H. unfold english_stage. unfold mbind at 1. unfold M_bind at 1.
  unfold cache_get at 1. rewrite H.
  unfold mbind at 1. unfold M_bind at 1.
  destruct (generate q s) as [r s1] eqn:E. unfold_monad. simpl.
  assert (response_cache s1 = response_cache s) as ->; [|done].
  change s1 with (r, s1).2. rewrite <- E. apply generate_cache.
Qed.

Lemma stage_en_stored q s :
  response_cache (stage_en q s).2 !! make_key q "en" = Some (stage_en q s).1.
Proof.
  destruct (response_cache s !! make_key q "en") as [a|] eqn:E.
  - by rewrite (stage_en_cached _ _ _ E).
  - rewrite (stage_en_fresh _ _ E). simpl. apply lookup_insert_eq.
Qed.

Lemma stage_en_other q s k :
  k ≠ make_key q "en" →
  response_cache (stage_en q s).2 !! k = response_cache s !! k.
Proof.
  intros Hk. destruct (response_cache s !! make_key q "en") as [a|] eqn:E.
  - by rewrite (stage_en_cached _ _ _ E).
  - rewrite (stage_en_fresh _ _ E). simpl. by rewrite lookup_insert_ne.
Qed.

Lemma stage_en_mono q s :
  response_cache s ⊆ response_cache (stage_en q s).2.
Proof.
  destruct (response_cache s !! make_key q "en") as [a|] eqn:E.
  - by rewrite (stage_en_cached _ _ _ E).
  - rewrite (stage_en_fresh _ _ E). simpl. by apply insert_subseteq.
Qed.

Lemma stage_en_translate_calls q s :
  translate_calls (stage_en q s).2 = translate_calls s.
Proof.
  destruct (response_cache s !! make_key q "en") as [a|] eqn:E.
  - by rewrite (stage_en_cached _ _ _ E).
  - rewrite (stage_en_fresh _ _ E). unfold translate_calls at 1. simpl.
    apply generate_translate_calls.
Qed.

Lemma stage_en_llm_calls q s :
  llm_calls (stage_en q s).2 =
    llm_calls s +
    match response_cache s !! make_key q "en" with Some _ => 0 | None => 1 end.
Proof.
  destruct (response_cache s !! make_key q "en") as [a|] eqn:E.
  - rewrite (stage_en_cached _ _ _ E). simpl. lia.
  - rewrite (stage_en_fresh _ _ E). unfold llm_calls at 1. simpl.
    fold (llm_calls (generate q s).2). rewrite generate_llm_calls. lia.
Qed.

(** *** The translation stage *)

Lemma stage_tr_cached q l a s t :
  response_cache s !! make_key q (default "en" (LANG_MAP !! l)) = Some t →
  stage_tr q l a s = (t, s).
Proof.
  intros H. unfold translation_stage. unfold mbind at 1. unfold M_bind at 1.
  unfold cache_get at 1. by rewrite H.
Qed.

Lemma stage_tr_fresh q l a s :
  let target := default "en" (LANG_MAP !! l) in
  response_cache s !! make_key q target = None →
  stage_tr q l a s =
    ((translate target a s).1,
     State (<[make_key q target := (translate target a s).1]> (response_cache s))
           (world (translate target a s).2) (trace (translate target a s).2)).
Proof.
  intros target H. unfold translation_stage. fold target.
  unfold mbind at 1. unfold M_bind at 1.
  unfold cache_get at 1. rewrite H.
  unfold mbind at 1. unfold M_bind at 1.
  destruct (translate target a s) as [r s1] eqn:E. unfold_monad. simpl.
  assert (response_cache s1 = response_cache s) as ->; [|done].
  change s1 with (r, s1).2. rewrite <- E. apply translate_cache.
Qed.

Lemma stage_tr_stored q l a s :
  response_cache (stage_tr q l a s).2 !! make_key q (default "en" (LANG_MAP !! l))
  = Some (stage_tr q l a s).1.
Proof.
  destruct (response_cache s !! make_key q (default "en" (LANG_MAP !! l)))
    as [t|] eqn:E.
  - by rewrite (stage_tr_cached _ _ _ _ _ E).
  - rewrite (stage_tr_fresh _ _ _ _ E). simpl. apply lookup_insert_eq.
Qed.

Lemma stage_tr_other q l a s k :
  k ≠ make_key q (default "en" (LANG_MAP !! l)) →
  response_cache (stage_tr q l a s).2 !! k = response_cache s !! k.
Proof.
  intros Hk.
  destruct (response_cache s !! make_key q (default "en" (LANG_MAP !! l)))
    as [t|] eqn:E.
  - by rewrite (stage_tr_cached _ _ _ _ _ E).
  - rewrite (stage_tr_fresh _ _ _ _ E). simpl. by rewrite lookup_insert_ne.
Qed.

Lemma stage_tr_mono q l a s :
  response_cache s ⊆ response_cache (stage_tr q l a s).2.
Proof.
  destruct (response_cache s !! make_key q (default "en" (LANG_MAP !! l)))
    as [t|] eqn:E.
  - by rewrite (stage_tr_cached _ _ _ _ _ E).
  - rewrite (stage_tr_fresh _ _ _ _ E). simpl. by apply insert_subseteq.
Qed.

Lemma stage_tr_llm_calls q l a s :
  llm_calls (stage_tr q l a s).2 = llm_calls s.
Proof.
  destruct (response_cache s !! make_key q (default "en" (LANG_MAP !! l)))
    as [t|] eqn:E.
  - by rewrite (stage_tr_cached _ _ _ _ _ E).
  - rewrite (stage_tr_fresh _ _ _ _ E). unfold llm_calls at 1. simpl.
    apply translate_llm_calls.
Qed.

Lemma stage_tr_translate_calls q l a s :
  translate_calls (stage_tr q l a s).2 =
    translate_calls s +
    match response_cache s !! make_key q (default "en" (LANG_MAP !! l)) with
    | Some _ => 0
    | None => 1
    end.
Proof.
  destruct (response_cache s !! make_key q (default "en" (LANG_MAP !! l)))
    as [t|] eqn:E.
  - rewrite (stage_tr_cached _ _ _ _ _ E). simpl. lia.
  - rewrite (stage_tr_fresh _ _ _ _ E). unfold translate_calls at 1. simpl.
    fold (translate_calls (translate (default "en" (LANG_MAP !! l)) a s).2).
    rewrite translate_translate_calls. lia.
Qed.

(** *** The resolver after a miss *)

Lemma miss_en q s :
  miss q "en" s =
    ((stage_en q s).1,
     State (<[make_key q "en" := (stage_en q s).1]> (response_cache (stage_en q s).2))
           (world (stage_en q s).2) (trace (stage_en q s).2)).
Proof.
  unfold resolve_miss. unfold mbind at 1. unfold M_bind at 1.
  destruct (stage_en q s) as [a s1]. rewrite decide_True by done.
  reflexivity.
Qed.

Lemma miss_other q l s :
  l ≠ "en" →
  let a := (stage_en q s).1 in
  let s1 := (stage_en q s).2 in
  miss q l s =
    ((stage_tr q l a s1).1,
     State (<[make_key q l := (stage_tr q l a s1).1]>
              (response_cache (stage_tr q l a s1).2))
           (world (stage_tr q l a s1).2) (trace (stage_tr q l a s1).2)).
Proof.
  intros Hl. unfold resolve_miss. unfold mbind at 1. unfold M_bind at 1.
  destruct (stage_en q s) as [a s1]. rewrite decide_False by done. simpl.
  unfold mbind at 1. unfold M_bind at 1.
  destruct (stage_tr q l a s1) as [t s2]. reflexivity.
Qed.

(** ** One call of the resolver *)

(** What a call returns is what the cache holds afterwards under the key of
    the call. *)
Lemma resolve_stored q l s :
  response_cache (resolve q l s).2 !! make_key q l = Some (resolve q l s).1.
Proof.
  rewrite resolve_stages.
  destruct (response_cache s !! make_key q l) as [v|] eqn:E; [done|].
  destruct (decide (l = "en")) as [->|Hl].
  - rewrite miss_en. simpl. apply lookup_insert_eq.
  - rewrite (miss_other _ _ _ Hl). simpl. apply lookup_insert_eq.
Qed.

(** After a call the English answer of the query is cached, unless the call
    was a hit on its own key. *)
Lemma resolve_miss_english_stored q l s :
  response_cache s !! make_key q l = None →
  response_cache (resolve q l s).2 !! make_key q "en" = Some (stage_en q s).1.
Proof.
  intros E. rewrite resolve_stages, E.
  destruct (decide (l = "en")) as [->|Hl].
  - rewrite miss_en. simpl. apply lookup_insert_eq.
  - rewrite (miss_other _ _ _ Hl). simpl.
    rewrite lookup_insert_ne by (intros Hk; by apply make_key_inj_language in Hk).
    eapply lookup_weaken; [apply stage_en_stored|apply stage_tr_mono].
Qed.

(** A call only touches the three keys it computes. *)
Lemma resolve_other q l s k :
  k ≠ make_key q l →
  k ≠ make_key q "en" →
  k ≠ make_key q (default "en" (LANG_MAP !! l)) →
  response_cache (resolve q l s).2 !! k = response_cache s !! k.
Proof.
  intros Hk Hen Htr. rewrite resolve_stages.
  destruct (response_cache s !! make_key q l) as [v|] eqn:E; [done|].
  destruct (decide (l = "en")) as [->|Hl].
  - rewrite miss_en. simpl. rewrite lookup_insert_ne by done.
    by apply stage_en_other.
  - rewrite (miss_other _ _ _ Hl). simpl. rewrite lookup_insert_ne by done.
    rewrite stage_tr_other by done. by apply stage_en_other.
Qed.

(** A call never removes an entry and never changes one. *)
Lemma resolve_mono q l s :
  response_cache s ⊆ response_cache (resolve q l s).2.
Proof.
  rewrite resolve_stages.
  destruct (response_cache s !! make_key q l) as [v|] eqn:E; [done|].
  destruct (decide (l = "en")) as [->|Hl].
  - rewrite miss_en. simpl.
    rewrite insert_id by apply stage_en_stored. apply stage_en_mono.
  - rewrite (miss_other _ _ _ Hl). simpl.
    set (a := (stage_en q s).1). set (s1 := (stage_en q s).2).
    trans (response_cache s1); [apply stage_en_mono|].
    trans (response_cache (stage_tr q l a s1).2); [apply stage_tr_mono|].
    destruct (decide (make_key q l = make_key q (default "en" (LANG_MAP !! l))))
      as [Heq|Hne].
    + rewrite insert_id; [done|]. rewrite Heq at 1. apply stage_tr_stored.
    + apply insert_subseteq. rewrite stage_tr_other by done.
      unfold s1. rewrite stage_en_other; [done|].
      intros Hk. by apply make_key_inj_language in Hk.
Qed.

Lemma resolve_llm_calls q l s :
  llm_calls (resolve q l s).2 =
    llm_calls s +
    match response_cache s !! make_key q l, response_cache s !! make_key q "en" with
    | None, None => 1
    | _, _ => 0
    end.
Proof.
  rewrite resolve_stages.
  destruct (response_cache s !! make_key q l) as [v|] eqn:E; [simpl; lia|].
  assert (llm_calls (miss q l s).2 = llm_calls (stage_en q s).2) as ->.
  { destruct (decide (l = "en")) as [->|Hl].
    - by rewrite miss_en.
    - rewrite (miss_other _ _ _ Hl). unfold llm_calls at 1. simpl.
      apply stage_tr_llm_calls. }
  apply stage_en_llm_calls.
Qed.

(** A call whose language is not in [LANG_MAP] answers, on a miss, with the
    English answer and leaves the translator alone. *)
Lemma resolve_unsupported_miss q l s :
  LANG_MAP !! l = None →
  response_cache s !! make_key q l = None →
  (resolve q l s).1 = (stage_en q s).1
  ∧ translate_calls (resolve q l s).2 = translate_calls s.
Proof.
  intros Hl E. rewrite resolve_stages, E.
  assert (l ≠ "en") as Hen by (intros ->; by vm_compute in Hl).
  rewrite (miss_other _ _ _ Hen). simpl.
  assert (stage_tr q l (stage_en q s).1 (stage_en q s).2
          = ((stage_en q s).1, (stage_en q s).2)) as ->.
  { apply stage_tr_cached. rewrite Hl. simpl. apply stage_en_stored. }
  split; [done|]. unfold translate_calls at 1. simpl.
  apply stage_en_translate_calls.
Qed.

(** ** Sequences of calls *)

Abbreviation run_calls := (run knowledge_base llm GoogleTranslator).

Lemma run_app (calls1 calls2 : list (string * string)) s :
  run_calls (calls1 ++ calls2) s = run_calls calls2 (run_calls calls1 s).
Proof.
  revert s. induction calls1 as [|[q l] calls1 IH]; intros s; [done|].
  simpl. apply IH.
Qed.

Lemma run_mono (calls : list (string * string)) s :
  response_cache s ⊆ response_cache (run_calls calls s).
Proof.
  revert s. induction calls as [|[q l] calls IH]; intros s; [done|].
  simpl. trans (response_cache (resolve q l s).2); [apply resolve_mono|apply IH].
Qed.

(** ** The claims about the resolver *)

(** C2: a second call of the resolver with the same query and language
    returns the same string as the first, and performs no call to the
    generation service and no call to the translation service; in fact it
    leaves the whole state as the first call left it. *)
Theorem resolve_twice_same_answer_no_calls q l s :
  let first := resolve q l s in
  let second := resolve q l first.2 in
  second.1 = first.1
  ∧ llm_calls second.2 = llm_calls first.2
  ∧ translate_calls second.2 = translate_calls first.2
  ∧ second.2 = first.2.
Proof.
  intros first second. unfold second.
  rewrite (resolve_hit q l first.2 first.1) by apply resolve_stored.
  done.
Qed.

(** C8: an entry of the cache stays as it is: whatever a key holds after
    some calls of the resolver, it still holds after any further calls. *)
Theorem cache_entries_persist
    (before after : list (string * string)) (s : state World) (k v : string) :
  response_cache (run knowledge_base llm GoogleTranslator before s) !! k = Some v →
  response_cache (run knowledge_base llm GoogleTranslator (before ++ after) s) !! k
  = Some v.
Proof.
  intros H. rewrite run_app.
  eapply lookup_weaken; [exact H|apply run_mono].
Qed.

(** C3: when the model raises [ResourceExhausted] for a query whose English
    answer is not cached, the resolver returns the quota apology, files it
    under the English key of the query, and after any further calls the
    same request is answered with that apology from the cache, the state
    (and with it the number of generation calls) staying as it was. *)
Theorem quota_apology_returned_and_kept q s e w :
  response_cache s !! make_key q "en" = None →
  llm (world s) (make_prompt knowledge_base q) = (LlmResourceExhausted e, w) →
  let first := resolve q "en" s in
  first.1 = "Sorry, the API quota is exceeded. Try again later."
  ∧ response_cache first.2 !! make_key q "en"
    = Some "Sorry, the API quota is exceeded. Try again later."
  ∧ ∀ calls,
      let later := run_calls calls first.2 in
      resolve q "en" later
        = ("Sorry, the API quota is exceeded. Try again later.", later)
      ∧ llm_calls (resolve q "en" later).2 = llm_calls later.
Proof.
  intros E Hq first.
  assert (first.1 = quota_apology) as H1.
  { unfold first. rewrite resolve_stages, E, miss_en. simpl.
    rewrite (stage_en_fresh _ _ E). simpl. by eapply generate_quota. }
  assert (response_cache first.2 !! make_key q "en" = Some quota_apology) as H2.
  { rewrite <- H1. apply resolve_stored. }
  split; [exact H1|]. split; [exact H2|].
  intros calls later.
  assert (resolve q "en" later = (quota_apology, later)) as ->; [|done].
  apply resolve_hit. eapply lookup_weaken; [exact H2|apply run_mono].
Qed.

(** C4: when the English answer of a query is cached, the translation into
    a supported language is not, and the translator raises, the resolver
    returns the English answer as it is (after exactly one call to the
    translator). *)
Theorem translation_failure_returns_source q t a s e w :
  t ∈ supported_codes →
  response_cache s !! make_key q "en" = Some a →
  response_cache s !! make_key q t = None →
  GoogleTranslator (world s) t a = (TranslateException e, w) →
  (resolve q t s).1 = a
  ∧ translate_calls (resolve q t s).2 = S (translate_calls s).
Proof.
  intros Ht Hen Hmiss Hfail.
  assert (t ≠ "en") as Hne by (intros ->; congruence).
  assert (default "en" (LANG_MAP !! t) = t) as Htarget.
  { destruct (LANG_MAP !! t) as [t'|] eqn:E.
    - by apply LANG_MAP_lookup_Some in E as [-> _].
    - by apply LANG_MAP_lookup_None in E. }
  rewrite resolve_stages, Hmiss, (miss_other _ _ _ Hne). simpl.
  rewrite (stage_en_cached _ _ _ Hen). simpl.
  pose proof (stage_tr_fresh q t a s) as Hfresh. simpl in Hfresh.
  rewrite Htarget in Hfresh. rewrite (Hfresh Hmiss). simpl.
  split; [by eapply translate_exception|].
  unfold translate_calls at 1. simpl. apply translate_translate_calls.
Qed.


(** ** Unsupported language codes and coherence of the cache *)

Lemma resolve_en_result q s :
  (resolve q "en" s).1 = (stage_en q s).1.
Proof.
  rewrite resolve_stages.
  destruct (response_cache s !! make_key q "en") as [a|] eqn:E.
  - by rewrite (stage_en_cached _ _ _ E).
  - by rewrite miss_en.
Qed.

Lemma coherent_empty : coherent ∅.
Proof. intros q l v _ _ H. by rewrite lookup_empty in H. Qed.

Lemma resolve_coherent q l s :
  has_underscore l = false →
  coherent (response_cache s) →
  coherent (response_cache (resolve q l s).2).
Proof.
  intros Hl Hc q' l' v Hl' Hnone Hv.
  destruct (response_cache s !! make_key q' l') as [v'|] eqn:Eold.
  - pose proof (lookup_weaken _ _ _ _ Eold (resolve_mono q l s)) as Hv'.
    assert (v' = v) as -> by congruence.
    eapply lookup_weaken; [|apply resolve_mono]. by eapply Hc.
  - destruct (decide (make_key q' l' = make_key q l)) as [Heq|Hne].
    + apply make_key_eq_underscore_free in Heq as [-> ->]; [|done..].
      destruct (resolve_unsupported_miss q l s Hnone Eold) as [Hr _].
      rewrite resolve_stored in Hv. injection Hv as <-. rewrite Hr.
      by apply resolve_miss_english_stored.
    + rewrite resolve_other in Hv; [congruence|done|..].
      * intros Heq. apply make_key_eq_underscore_free in Heq as [_ ->]; [|done..].
        by vm_compute in Hnone.
      * intros Heq.
        apply make_key_eq_underscore_free in Heq as [_ ->]; [|done|].
        -- apply LANG_MAP_lookup_None in Hnone. apply Hnone, target_lang_supported.
        -- apply supported_underscore_free, target_lang_supported.
Qed.

Lemma run_coherent (calls : list (string * string)) s :
  underscore_free_calls calls →
  coherent (response_cache s) →
  coherent (response_cache (run_calls calls s)).
Proof.
  intros Hcalls. revert s.
  induction Hcalls as [|[q l] calls Hl _ IH]; intros s Hc; [done|].
  simpl. apply IH. by apply resolve_coherent.
Qed.

(** In a coherent cache an unsupported code without underscore is answered
    as English is. *)
Lemma resolve_unsupported_coherent q l s :
  coherent (response_cache s) →
  has_underscore l = false →
  LANG_MAP !! l = None →
  (resolve q l s).1 = (resolve q "en" s).1.
Proof.
  intros Hc Hl Hnone.
  destruct (response_cache s !! make_key q l) as [v|] eqn:E.
  - rewrite (resolve_hit _ _ _ _ E).
    by rewrite (resolve_hit _ _ _ _ (Hc _ _ _ Hl Hnone E)).
  - destruct (resolve_unsupported_miss q l s Hnone E) as [-> _].
    by rewrite resolve_en_result.
Qed.

(** On a miss the same holds whatever the cache and the code look like. *)
Lemma resolve_unsupported_uncached q l s :
  LANG_MAP !! l = None →
  response_cache s !! make_key q l = None →
  (resolve q l s).1 = (resolve q "en" s).1.
Proof.
  intros Hnone E.
  destruct (resolve_unsupported_miss q l s Hnone E) as [-> _].
  by rewrite resolve_en_result.
Qed.

(** C6 (as amended): after any calls whose language codes contain no
    underscore, starting from the empty cache, a call with a language code
    outside the supported set that contains no underscore returns the same
    string as the call for "en" with the same query would. *)
Theorem unsupported_language_same_as_english
    (w : World) (calls : list (string * string)) q l :
  underscore_free_calls calls →
  has_underscore l = false →
  l ∉ supported_codes →
  let s := run_calls calls (initial_state w) in
  (resolve q l s).1 = (resolve q "en" s).1.
Proof.
  intros Hcalls Hl Hout s.
  apply resolve_unsupported_coherent; [|done|by apply LANG_MAP_lookup_None].
  apply run_coherent; [done|]. apply coherent_empty.
Qed.

(** C9 (as amended): for a language code outside the supported set, which
    is then not "en", the resolver never calls the translator, in any state.
    After the call the cache holds the returned string under the English key
    of the query and under the key of the call itself, when the call was not
    a hit on its own key; and, hits included, in every state reached from the
    empty cache by calls whose language codes contain no underscore, when
    the code of the call contains none either. *)
Theorem unsupported_language_no_translator_english_filed
    (w : World) (calls : list (string * string)) q l s :
  l ∉ supported_codes →
  (l ≠ "en" ∧ translate_calls (resolve q l s).2 = translate_calls s)
  ∧ (response_cache s !! make_key q l = None →
     response_cache (resolve q l s).2 !! make_key q "en"
     = Some (resolve q l s).1
     ∧ response_cache (resolve q l s).2 !! make_key q l
       = Some (resolve q l s).1)
  ∧ (underscore_free_calls calls →
     has_underscore l = false →
     let reached :=
       run knowledge_base llm GoogleTranslator calls (initial_state w) in
     response_cache (resolve q l reached).2 !! make_key q "en"
     = Some (resolve q l reached).1
     ∧ response_cache (resolve q l reached).2 !! make_key q l
       = Some (resolve q l reached).1).
Proof.
  intros Hout. pose proof Hout as Hl. apply LANG_MAP_lookup_None in Hl.
  assert (∀ s', response_cache s' !! make_key q l = None →
            response_cache (resolve q l s').2 !! make_key q "en"
            = Some (resolve q l s').1) as Hmiss.
  { intros s' E. destruct (resolve_unsupported_miss q l s' Hl E) as [-> _].
    by apply resolve_miss_english_stored. }
  split; [split|split].
  - intros ->. by vm_compute in Hl.
  - destruct (response_cache s !! make_key q l) as [v|] eqn:E.
    + by rewrite (resolve_hit _ _ _ _ E).
    + by apply resolve_unsupported_miss.
  - intros E. split; [by apply Hmiss|apply resolve_stored].
  - intros Hcalls Hfree reached. split; [|apply resolve_stored].
    destruct (response_cache reached !! make_key q l) as [v|] eqn:E.
    + rewrite (resolve_hit _ _ _ _ E). simpl.
      assert (coherent (response_cache reached)) as Hc
        by (apply run_coherent; [done|apply coherent_empty]).
      by apply (Hc q l v).
    + by apply Hmiss.
Qed.

(** ** The request handler *)

Abbreviation handle := (chat knowledge_base llm GoogleTranslator).

Lemma chat_with_query (lang : option string) (c : ascii) q s :
  handle (Form (Some (String c q)) lang) s =
    (Jsonify (resolve (String c q) (default "en" lang) s).1,
     (resolve (String c q) (default "en" lang) s).2).
Proof.
  unfold chat. simpl. unfold mbind, M_bind.
  by destruct (resolve (String c q) (default "en" lang) s).
Qed.

(** C7: when the query of a request is absent or empty, the handler answers
    "Please enter a question." and leaves the state as it is: the cache is
    the same and neither service has been called. *)
Theorem chat_missing_query_asks_for_input (req : form) s :
  form_user_query req = None ∨ form_user_query req = Some "" →
  handle req s = (Jsonify "Please enter a question.", s)
  ∧ response_cache (handle req s).2 = response_cache s
  ∧ llm_calls (handle req s).2 = llm_calls s
  ∧ translate_calls (handle req s).2 = translate_calls s.
Proof.
  intros H.
  assert (handle req s = (Jsonify "Please enter a question.", s)) as ->; [|done].
  unfold chat. by destruct H as [-> | ->].
Qed.

(** C10: the handler takes the missing-input path exactly when the query is
    absent or the empty string, and passes every other query to the
    resolver; the query of three blanks is passed on like any other, and when
    it is not cached the model is called for it. *)
Theorem chat_missing_exactly_absent_or_empty (req : form) s :
  handle req s =
    match form_user_query req with
    | None | Some "" => (Jsonify "Please enter a question.", s)
    | Some q =>
        (Jsonify (resolve q (default "en" (form_language req)) s).1,
         (resolve q (default "en" (form_language req)) s).2)
    end
  ∧ ∀ lang : option string,
      let language := default "en" lang in
      let r := handle (Form (Some "   ") lang) s in
      r = (Jsonify (resolve "   " language s).1, (resolve "   " language s).2)
      ∧ (response_cache s !! make_key "   " language = None →
         response_cache s !! make_key "   " "en" = None →
         llm_calls r.2 = llm_calls s + 1).
Proof.
  split.
  - destruct req as [[[|c q]|] lang]; simpl; [done| |done].
    apply chat_with_query.
  - intros lang language r. unfold r. rewrite chat_with_query. fold language.
    split; [done|]. intros E1 E2. simpl.
    by rewrite resolve_llm_calls, E1, E2.
Qed.

(** ** Further properties of the resolver *)

(** *** The exact outcome of the service calls *)

Lemma generate_content_exact q s c w :
  llm (world s) (make_prompt knowledge_base q) = (LlmContent c, w) →
  generate q s =
    (c, State (response_cache s) w
          (trace s ++ [EvLlmInvoke (make_prompt knowledge_base q)])).
Proof. intros H. unfold english_from_llm. unfold_monad. by rewrite H. Qed.

Lemma generate_exception_exact q s e w :
  llm (world s) (make_prompt knowledge_base q) = (LlmException e, w) →
  generate q s =
    (connection_apology,
     State (response_cache s) w
       (trace s ++ [EvLlmInvoke (make_prompt knowledge_base q);
                    EvPrint ("Error calling Gemini API: " +:+ e)])).
Proof.
  intros H. unfold english_from_llm. unfold_monad. rewrite H. simpl.
  by rewrite <- app_assoc.
Qed.

Lemma translate_exact t a s r w :
  GoogleTranslator (world s) t a = (Translated r, w) →
  translate t a s =
    (r, State (response_cache s) w (trace s ++ [EvTranslate t a])).
Proof. intros H. unfold translate_or_keep. unfold_monad. by rewrite H. Qed.

Lemma translate_exception_exact t a s e w :
  GoogleTranslator (world s) t a = (TranslateException e, w) →
  translate t a s =
    (a, State (response_cache s) w
          (trace s ++ [EvTranslate t a;
                       EvPrint ("Translation failed for " +:+ t +:+ ": " +:+ e)])).
Proof.
  intros H. unfold translate_or_keep. unfold_monad. rewrite H. simpl.
  by rewrite <- app_assoc.
Qed.

Lemma supported_target l :
  l ∈ supported_codes → default "en" (LANG_MAP !! l) = l.
Proof.
  intros Hl. destruct (LANG_MAP !! l) as [t|] eqn:E.
  - by apply LANG_MAP_lookup_Some in E as [-> _].
  - by apply LANG_MAP_lookup_None in E.
Qed.

(** The target code is the language itself or "en". *)
Lemma target_is_language_or_en l :
  default "en" (LANG_MAP !! l) = l ∨ default "en" (LANG_MAP !! l) = "en".
Proof.
  destruct (LANG_MAP !! l) as [t|] eqn:E; [|by right].
  left. by apply LANG_MAP_lookup_Some in E as [-> _].
Qed.

(** A miss on both keys for a supported language other than "en": the text
    the model stage yields is stored under the English key and handed to the
    translator, whose result is stored under the key of the call. *)
Lemma resolve_full_miss_translated q l s t w :
  response_cache s !! make_key q l = None →
  response_cache s !! make_key q "en" = None →
  l ∈ supported_codes →
  l ≠ "en" →
  GoogleTranslator (world (generate q s).2) l (generate q s).1 = (Translated t, w) →
  resolve q l s =
    (t, State (<[make_key q l := t]>
                 (<[make_key q "en" := (generate q s).1]> (response_cache s)))
              w (trace (generate q s).2 ++ [EvTranslate l (generate q s).1])).
Proof.
  intros Hmiss Hen Hl Hne Htr.
  rewrite resolve_stages, Hmiss, (miss_other _ _ _ Hne). simpl.
  rewrite (stage_en_fresh _ _ Hen). simpl.
  pose proof (stage_tr_fresh q l (generate q s).1
    (State (<[make_key q "en" := (generate q s).1]> (response_cache s))
           (world (generate q s).2) (trace (generate q s).2))) as Hfresh.
  simpl in Hfresh. rewrite (supported_target _ Hl) in Hfresh.
  rewrite Hfresh; clear Hfresh.
  - erewrite translate_exact by exact Htr. simpl.
    by rewrite insert_insert_eq.
  - rewrite lookup_insert_ne; [done|].
    intros Hk. apply make_key_inj_language in Hk. congruence.
Qed.

(** X1: when the model raises an exception other than quota exhaustion for a
    query whose English answer is not cached, the call for "en" returns the
    connection apology, files it under the English key, and logs the call
    and the error line; nothing else changes. *)
Theorem model_failure_apology_cached q s e w :
  response_cache s !! make_key q "en" = None →
  llm (world s) (make_prompt knowledge_base q) = (LlmException e, w) →
  resolve q "en" s =
    ("Sorry, I'm having trouble connecting right now.",
     State (<[make_key q "en" := "Sorry, I'm having trouble connecting right now."]>
              (response_cache s))
           w
           (trace s ++ [EvLlmInvoke (make_prompt knowledge_base q);
                        EvPrint ("Error calling Gemini API: " +:+ e)])).
Proof.
  intros Hen Hfail.
  rewrite resolve_stages, Hen, miss_en, (stage_en_fresh _ _ Hen).
  rewrite (generate_exception_exact _ _ _ _ Hfail). simpl.
  by rewrite insert_insert_eq.
Qed.

(** X2: on a miss of both keys for a supported language other than "en",
    with the model answering [c] and the translator then answering [t], the
    call returns [t], stores [c] under the English key and [t] under the key
    of the call, and has called the model once and then the translator once,
    on [c]. *)
Theorem full_miss_generates_then_translates q l s c t w1 w2 :
  response_cache s !! make_key q l = None →
  response_cache s !! make_key q "en" = None →
  l ∈ supported_codes →
  l ≠ "en" →
  llm (world s) (make_prompt knowledge_base q) = (LlmContent c, w1) →
  GoogleTranslator w1 l c = (Translated t, w2) →
  resolve q l s =
    (t, State (<[make_key q l := t]> (<[make_key q "en" := c]> (response_cache s)))
              w2
              (trace s ++ [EvLlmInvoke (make_prompt knowledge_base q);
                           EvTranslate l c])).
Proof.
  intros Hmiss Hen Hl Hne Hllm Htr.
  rewrite (resolve_full_miss_translated q l s t w2 Hmiss Hen Hl Hne);
    rewrite (generate_content_exact _ _ _ _ Hllm); simpl; [|done].
  by rewrite <- app_assoc.
Qed.

Lemma generate_quota_exact q s e w :
  llm (world s) (make_prompt knowledge_base q) = (LlmResourceExhausted e, w) →
  generate q s =
    (quota_apology,
     State (response_cache s) w
       (trace s ++ [EvLlmInvoke (make_prompt knowledge_base q);
                    EvPrint ("Gemini quota exceeded! Details: " +:+ e)])).
Proof.
  intros H. unfold english_from_llm. unfold_monad. rewrite H. simpl.
  by rewrite <- app_assoc.
Qed.

(** X3: when the model fails on such a miss, by quota exhaustion or by any
    other exception, it is the apology of that failure that is sent to the
    translator: the call logs the failure line, returns the translated
    apology, and stores the apology under the English key and its
    translation under the key of the call. *)
Theorem model_failure_apology_is_translated
    q l s (o : llm_outcome) (e apology line : string) t w1 w2 :
  response_cache s !! make_key q l = None →
  response_cache s !! make_key q "en" = None →
  l ∈ supported_codes →
  l ≠ "en" →
  (o = LlmResourceExhausted e
   ∧ apology = "Sorry, the API quota is exceeded. Try again later."
   ∧ line = "Gemini quota exceeded! Details: " +:+ e)
  ∨ (o = LlmException e
     ∧ apology = "Sorry, I'm having trouble connecting right now."
     ∧ line = "Error calling Gemini API: " +:+ e) →
  llm (world s) (make_prompt knowledge_base q) = (o, w1) →
  GoogleTranslator w1 l apology = (Translated t, w2) →
  resolve q l s =
    (t, State (<[make_key q l := t]>
                 (<[make_key q "en" := apology]> (response_cache s)))
              w2
              (trace s ++ [EvLlmInvoke (make_prompt knowledge_base q);
                           EvPrint line;
                           EvTranslate l apology])).
Proof.
  intros Hmiss Hen Hl Hne Hfail Hllm Htr.
  destruct Hfail as [(-> & -> & ->)|(-> & -> & ->)].
  - rewrite (resolve_full_miss_translated q l s t w2 Hmiss Hen Hl Hne);
      rewrite (generate_quota_exact _ _ _ _ Hllm); simpl; [|done].
    by rewrite <- app_assoc.
  - rewrite (resolve_full_miss_translated q l s t w2 Hmiss Hen Hl Hne);
      rewrite (generate_exception_exact _ _ _ _ Hllm); simpl; [|done].
    by rewrite <- app_assoc.
Qed.

(** X4: when the translator raises for a cached English answer, the English
    text is stored under the key of the call as if it were the translation,
    and the call and the failure line are logged. *)
Theorem translation_failure_is_cached q t a s e w :
  t ∈ supported_codes →
  response_cache s !! make_key q "en" = Some a →
  response_cache s !! make_key q t = None →
  GoogleTranslator (world s) t a = (TranslateException e, w) →
  resolve q t s =
    (a, State (<[make_key q t := a]> (response_cache s)) w
          (trace s ++ [EvTranslate t a;
                       EvPrint ("Translation failed for " +:+ t +:+ ": " +:+ e)])).
Proof.
  intros Ht Hen Hmiss Hfail.
  assert (t ≠ "en") as Hne by (intros ->; congruence).
  rewrite resolve_stages, Hmiss, (miss_other _ _ _ Hne). simpl.
  rewrite (stage_en_cached _ _ _ Hen). simpl.
  pose proof (stage_tr_fresh q t a s) as Hfresh. simpl in Hfresh.
  rewrite (supported_target _ Ht) in Hfresh. rewrite (Hfresh Hmiss).
  rewrite (translate_exception_exact _ _ _ _ _ Hfail). simpl.
  by rewrite insert_insert_eq.
Qed.

(** *** What one call costs and touches *)

(** X5: a call reaches the model exactly when neither its own key nor the
    English key of the query is cached, and then once. *)
Theorem model_called_iff_both_keys_missing q l s :
  llm_calls (resolve q l s).2 =
    llm_calls s +
    (if decide (response_cache s !! make_key q l = None
                ∧ response_cache s !! make_key q "en" = None)
     then 1 else 0).
Proof.
  rewrite resolve_llm_calls.
  destruct (response_cache s !! make_key q l) as [v|];
    destruct (response_cache s !! make_key q "en") as [a|].
  - rewrite decide_False; [done|]. intros [? _]. discriminate.
  - rewrite decide_False; [done|]. intros [? _]. discriminate.
  - rewrite decide_False; [done|]. intros [_ ?]. discriminate.
  - by rewrite decide_True.
Qed.

Lemma resolve_translate_calls q l s :
  translate_calls (resolve q l s).2 =
    translate_calls s +
    (if decide (response_cache s !! make_key q l = None
                ∧ l ≠ "en" ∧ l ∈ supported_codes)
     then 1 else 0).
Proof.
  destruct (response_cache s !! make_key q l) as [v|] eqn:E.
  { rewrite (resolve_hit _ _ _ _ E). rewrite decide_False; [simpl; lia|].
    intros [? _]. discriminate. }
  destruct (decide (l = "en")) as [->|Hne].
  { rewrite resolve_stages, E, miss_en.
    rewrite decide_False by (intros (_ & ? & _); done).
    unfold translate_calls at 1. simpl.
    fold (translate_calls (stage_en q s).2).
    rewrite stage_en_translate_calls. lia. }
  destruct (LANG_MAP !! l) as [t|] eqn:Hl.
  - apply LANG_MAP_lookup_Some in Hl as [-> Hin].
    rewrite decide_True by done.
    rewrite resolve_stages, E, (miss_other _ _ _ Hne).
    unfold translate_calls at 1. simpl.
    fold (translate_calls
            (stage_tr q l (stage_en q s).1 (stage_en q s).2).2).
    rewrite stage_tr_translate_calls, (supported_target _ Hin).
    rewrite stage_en_other, E, stage_en_translate_calls; [done|].
    intros Hk. by apply make_key_inj_language in Hk.
  - destruct (resolve_unsupported_miss q l s Hl E) as [_ ->].
    apply LANG_MAP_lookup_None in Hl.
    rewrite decide_False by (intros (_ & _ & ?); done). lia.
Qed.

(** X6: a call reaches the translator exactly when its own key is not cached
    and the language is a supported code other than "en", and then once. *)
Theorem translator_called_iff_supported_miss q l s :
  translate_calls (resolve q l s).2 =
    translate_calls s +
    (if decide (response_cache s !! make_key q l = None
                ∧ l ≠ "en" ∧ l ∈ supported_codes)
     then 1 else 0).
Proof. exact (resolve_translate_calls q l s). Qed.

(** X7: a call leaves every entry alone except the one under its own key and
    the one under the English key of its query. *)
Theorem resolve_touches_only_its_keys q l s k :
  k ≠ make_key q l →
  k ≠ make_key q "en" →
  response_cache (resolve q l s).2 !! k = response_cache s !! k.
Proof.
  intros Hk Hen. apply resolve_other; [done..|].
  by destruct (target_is_language_or_en l) as [-> | ->].
Qed.

(** *** Requests served before *)

Lemma run_served (calls : list (string * string)) s q l :
  (q, l) ∈ calls →
  is_Some (response_cache (run_calls calls s) !! make_key q l).
Proof.
  revert s. induction calls as [|[q' l'] calls IH]; intros s Hin.
  - by apply elem_of_nil in Hin.
  - simpl. apply elem_of_cons in Hin as [[= <- <-]|Hin]; [|by apply IH].
    exists (resolve q l s).1.
    eapply lookup_weaken; [apply resolve_stored|apply run_mono].
Qed.

Lemma run_all_hits (calls : list (string * string)) s :
  (∀ q l, (q, l) ∈ calls → is_Some (response_cache s !! make_key q l)) →
  run_calls calls s = s.
Proof.
  induction calls as [|[q l] calls IH]; intros Hall; [done|].
  simpl. destruct (Hall q l) as [v Hv]; [by left|].
  rewrite (resolve_hit _ _ _ _ Hv). simpl.
  apply IH. intros q' l' Hin. apply Hall. by right.
Qed.

(** X8: once a (query, language) request has been served, the same request
    is answered with the same string after any further calls, from the
    cache: the state stays as it is, so no service is called. *)
Theorem served_request_is_replayed_from_cache
    q l (later : list (string * string)) s :
  let first := resolve q l s in
  let now := run knowledge_base llm GoogleTranslator later first.2 in
  resolve q l now = (first.1, now).
Proof.
  intros first now. apply resolve_hit.
  eapply lookup_weaken; [apply resolve_stored|apply run_mono].
Qed.

(** X9: replaying requests that were all made before changes nothing: the
    cache, the world of the services and the trace stay as they are. *)
Theorem replaying_served_requests_changes_nothing
    (calls again : list (string * string)) s :
  again ⊆ calls →
  run knowledge_base llm GoogleTranslator (calls ++ again) s
  = run knowledge_base llm GoogleTranslator calls s.
Proof.
  intros Hsub. rewrite run_app. apply run_all_hits.
  intros q l Hin. apply run_served. by apply Hsub.
Qed.

(** X10: after a call in any language that was not a hit, the call for "en"
    with the same query is a hit: it calls no service and returns the
    English text the first call left under the English key. *)
Theorem english_is_cached_by_any_miss q l s :
  response_cache s !! make_key q l = None →
  let first := resolve q l s in
  let second := resolve q "en" first.2 in
  second.2 = first.2
  ∧ response_cache first.2 !! make_key q "en" = Some second.1.
Proof.
  intros E first second.
  pose proof (resolve_miss_english_stored q l s E) as Hen.
  assert (second = ((stage_en q s).1, first.2)) as ->
    by (apply resolve_hit; exact Hen).
  split; [done|exact Hen].
Qed.

(** X11: a call whose language code is [m_l] fills the very key of the
    request with query [q_m] and language [l], which is then answered from
    the cache with the answer of the first call. *)
Theorem compound_language_answers_other_request q m l s :
  let first := resolve q (make_key m l) s in
  resolve (make_key q m) l first.2 = (first.1, first.2).
Proof.
  intros first. apply resolve_hit.
  rewrite <- make_key_assoc. apply resolve_stored.
Qed.

(** *** What a sequence of calls costs *)

Lemma cache_miss_before q l s k :
  response_cache (resolve q l s).2 !! k = None → response_cache s !! k = None.
Proof.
  intros H. destruct (response_cache s !! k) as [v|] eqn:E; [|done].
  pose proof (lookup_weaken _ _ _ _ E (resolve_mono q l s)). congruence.
Qed.

Lemma size_grows_by_new_element `{Countable K} (X Y : gset K) (x : K) :
  X ⊆ Y → x ∈ Y → x ∉ X → (size X + 1 ≤ size Y)%nat.
Proof.
  intros Hsub Hin Hout.
  assert (size ({[x]} ∪ X) = 1 + size X) as Hsize.
  { rewrite size_union; [by rewrite size_singleton|].
    intros y ->%elem_of_singleton Hy. by apply Hout. }
  assert ({[x]} ∪ X ⊆ Y) as Hle.
  { intros y [->%elem_of_singleton|Hy]%elem_of_union; [done|by apply Hsub]. }
  apply subseteq_size in Hle. lia.
Qed.

(** The model calls of a sequence are bounded by the number of its queries
    whose English answer is not cached at the start. *)
Lemma llm_calls_pending (calls : list (string * string)) s :
  (llm_calls (run_calls calls s) ≤
     llm_calls s
     + size (filter (λ q, response_cache s !! make_key q "en" = None)
               (list_to_set (calls.*1) : gset string)))%nat.
Proof.
  revert s. induction calls as [|[q l] calls IH]; intros s; [simpl; lia|].
  change (run_calls ((q, l) :: calls) s) with (run_calls calls (resolve q l s).2).
  specialize (IH (resolve q l s).2).
  set (pending_after :=
         filter (λ q0, response_cache (resolve q l s).2 !! make_key q0 "en" = None)
           (list_to_set (calls.*1) : gset string)) in *.
  set (pending :=
         filter (λ q0, response_cache s !! make_key q0 "en" = None)
           (list_to_set (((q, l) :: calls).*1) : gset string)).
  assert (pending_after ⊆ pending) as Hsub.
  { intros x. unfold pending_after, pending.
    rewrite !elem_of_filter, !elem_of_list_to_set, fmap_cons.
    intros [Hx Hin]. split; [by eapply cache_miss_before|by right]. }
  rewrite resolve_llm_calls in IH.
  destruct (response_cache s !! make_key q l) as [v|] eqn:E.
  { apply subseteq_size in Hsub. lia. }
  destruct (response_cache s !! make_key q "en") as [a|] eqn:Een.
  { apply subseteq_size in Hsub. lia. }
  assert (size pending_after + 1 ≤ size pending)%nat; [|lia].
  apply (size_grows_by_new_element _ _ q); [done|..].
  - unfold pending. rewrite elem_of_filter, elem_of_list_to_set, fmap_cons.
    split; [done|by left].
  - unfold pending_after. rewrite elem_of_filter. intros [Hnone _].
    by rewrite (resolve_miss_english_stored q l s E) in Hnone.
Qed.

(** The translator calls of a sequence are bounded by the number of its
    (query, language) pairs that are not cached at the start and name a
    supported language other than "en". *)
Lemma translate_calls_pending (calls : list (string * string)) s :
  (translate_calls (run_calls calls s) ≤
     translate_calls s
     + size (filter (λ c, response_cache s !! make_key c.1 c.2 = None
                          ∧ c.2 ≠ "en" ∧ c.2 ∈ supported_codes)
               (list_to_set calls : gset (string * string))))%nat.
Proof.
  revert s. induction calls as [|[q l] calls IH]; intros s; [simpl; lia|].
  change (run_calls ((q, l) :: calls) s) with (run_calls calls (resolve q l s).2).
  specialize (IH (resolve q l s).2).
  set (pending_after :=
         filter (λ c, response_cache (resolve q l s).2 !! make_key c.1 c.2 = None
                      ∧ c.2 ≠ "en" ∧ c.2 ∈ supported_codes)
           (list_to_set calls : gset (string * string))) in *.
  set (pending :=
         filter (λ c, response_cache s !! make_key c.1 c.2 = None
                      ∧ c.2 ≠ "en" ∧ c.2 ∈ supported_codes)
           (list_to_set ((q, l) :: calls) : gset (string * string))).
  assert (pending_after ⊆ pending) as Hsub.
  { intros x. unfold pending_after, pending.
    rewrite !elem_of_filter, !elem_of_list_to_set. intros [(Hx & ? & ?) Hin].
    split; [|by right]. split; [by eapply cache_miss_before|done]. }
  rewrite resolve_translate_calls in IH.
  case_decide as Hcall.
  - assert (size pending_after + 1 ≤ size pending)%nat; [|lia].
    apply (size_grows_by_new_element _ _ (q, l)); [done|..].
    + unfold pending. rewrite elem_of_filter, elem_of_list_to_set.
      split; [done|by left].
    + unfold pending_after. rewrite elem_of_filter. intros [[Hnone _] _].
      simpl in Hnone. by rewrite resolve_stored in Hnone.
  - apply subseteq_size in Hsub. lia.
Qed.

(** X12: over any sequence of calls, from any state, the model is called at
    most once for each distinct query of the sequence. *)
Theorem model_called_at_most_once_per_query (calls : list (string * string)) s :
  (llm_calls (run knowledge_base llm GoogleTranslator calls s)
   ≤ llm_calls s + size (list_to_set (calls.*1) : gset string))%nat.
Proof.
  etrans; [apply llm_calls_pending|].
  apply Nat.add_le_mono_l, subseteq_size.
  intros x. rewrite elem_of_filter. by intros [_ ?].
Qed.

(** X13: over any sequence of calls, from any state, the translator is
    called at most once for each distinct (query, language) pair of the
    sequence whose language is a supported code other than "en". *)
Theorem translator_called_at_most_once_per_pair
    (calls : list (string * string)) s :
  (translate_calls (run knowledge_base llm GoogleTranslator calls s)
   ≤ translate_calls s
     + size (filter (λ c, c.2 ≠ "en" ∧ c.2 ∈ supported_codes)
               (list_to_set calls : gset (string * string))))%nat.
Proof.
  etrans; [apply translate_calls_pending|].
  apply Nat.add_le_mono_l, subseteq_size.
  intros x. rewrite !elem_of_filter. by intros [(_ & ? & ?) ?].
Qed.

(** *** The request handler, continued *)

(** X14: whatever the request, the handler never removes or changes an
    entry of the cache and calls each service at most once. *)
Theorem chat_keeps_entries_and_calls_once (req : form) s :
  response_cache s ⊆ response_cache (handle req s).2
  ∧ (llm_calls (handle req s).2 ≤ llm_calls s + 1)%nat
  ∧ (translate_calls (handle req s).2 ≤ translate_calls s + 1)%nat.
Proof.
  destruct req as [[[|c q]|] lang].
  - unfold chat. simpl. repeat split; [done|lia..].
  - rewrite chat_with_query. simpl. split; [apply resolve_mono|].
    rewrite resolve_llm_calls, resolve_translate_calls.
    split; [|case_decide; lia].
    repeat case_match; lia.
  - unfold chat. simpl. repeat split; [done|lia..].
Qed.

(** X15: for a request with a non-empty query the reply of the handler is
    what the cache then holds under the key of the query and the language,
    "en" when the form has no language; and a request without a language
    never reaches the translator. *)
Theorem chat_reply_is_cached (req : form) (q : string) s :
  form_user_query req = Some q →
  q ≠ "" →
  let r := handle req s in
  response_cache r.2 !! make_key q (default "en" (form_language req))
  = Some (response r.1)
  ∧ (form_language req = None → translate_calls r.2 = translate_calls s).
Proof.
  destruct req as [uq lang]. simpl. intros -> Hq.
  destruct q as [|c q]; [done|]. rewrite chat_with_query. simpl.
  split; [apply resolve_stored|].
  intros ->. simpl. rewrite resolve_translate_calls.
  rewrite decide_False by (intros (_ & ? & _); done). lia.
Qed.

End Resolver.

(** ** The key construction *)

(** C1 (as amended): on pairs whose language codes contain no underscore, and
    so on all five supported codes, the key construction is injective: two
    different (query, language) pairs get two different keys. *)
Theorem make_key_injective_without_underscore (q1 l1 q2 l2 : string) :
  has_underscore l1 = false →
  has_underscore l2 = false →
  (q1, l1) ≠ (q2, l2) →
  make_key q1 l1 ≠ make_key q2 l2.
Proof.
  intros H1 H2 Hne Hkey. apply Hne.
  by destruct (make_key_eq_underscore_free _ _ _ _ H1 H2 Hkey) as [-> ->].
Qed.

Corollary make_key_injective_supported (q1 l1 q2 l2 : string) :
  l1 ∈ supported_codes →
  l2 ∈ supported_codes →
  make_key q1 l1 = make_key q2 l2 →
  q1 = q2 ∧ l1 = l2.
Proof.
  intros H1 H2. apply make_key_eq_underscore_free;
    by apply supported_underscore_free.
Qed.

(** * The program on concrete requests *)

(** C1, counterexample: two different pairs with the same key; the entry
    written for the first is handed out for the second. *)
Lemma make_key_collision :
  ("exam", "date_xx") ≠ ("exam_date", "xx")
  ∧ make_key "exam" "date_xx" = make_key "exam_date" "xx"
  ∧ generate_response_with_gemini sample_kb scripted_llm tagging_translator
      "exam_date" "xx" after_exam_request
    = ("Exams start in May.", after_exam_request).
Proof. split; [discriminate|]. split; vm_compute; reflexivity. Qed.

(** The theorem of C1 at the pairs (exam, hi) and (exam_date, en). *)
Lemma make_key_injective_without_underscore_witness :
  make_key "exam" "hi" ≠ make_key "exam_date" "en".
Proof.
  apply (make_key_injective_without_underscore "exam" "hi" "exam_date" "en");
    [reflexivity|reflexivity|discriminate].
Defined.

(** The theorem of C3 on a fresh process whose model is out of quota. *)
Lemma quota_apology_returned_and_kept_witness :
  let resolve :=
    generate_response_with_gemini sample_kb scripted_llm tagging_translator in
  let first := resolve "library hours" "en"
                 (initial_state [LlmResourceExhausted "429 quota"]) in
  first.1 = "Sorry, the API quota is exceeded. Try again later."
  ∧ response_cache first.2 !! make_key "library hours" "en"
    = Some "Sorry, the API quota is exceeded. Try again later."
  ∧ ∀ calls,
      let later := run sample_kb scripted_llm tagging_translator calls first.2 in
      resolve "library hours" "en" later
        = ("Sorry, the API quota is exceeded. Try again later.", later)
      ∧ llm_calls (resolve "library hours" "en" later).2 = llm_calls later.
Proof.
  apply (quota_apology_returned_and_kept sample_kb scripted_llm
           tagging_translator "library hours"
           (initial_state [LlmResourceExhausted "429 quota"]) "429 quota" []);
    reflexivity.
Defined.

(** The theorem of C4 with the translator down and the English answer
    cached. *)
Lemma translation_failure_returns_source_witness :
  let r := generate_response_with_gemini sample_kb scripted_llm
             failing_translator "library hours" "hi" library_cached in
  r.1 = "Open 9 to 5." ∧ translate_calls r.2 = 1.
Proof.
  apply (translation_failure_returns_source sample_kb scripted_llm
           failing_translator "library hours" "hi" "Open 9 to 5."
           library_cached "connection refused" []).
  - apply LANG_MAP_lookup_Some with (t := "hi"). vm_compute. reflexivity.
  - vm_compute. reflexivity.
  - vm_compute. reflexivity.
  - reflexivity.
Defined.


(** C6, counterexample: "xx" is no supported code, and after the request
    (exam, date_xx) the query "exam_date" is answered differently for "xx"
    and for "en". *)
Lemma unsupported_language_differs_from_english :
  ("xx" ∉ supported_codes)
  ∧ (generate_response_with_gemini sample_kb scripted_llm tagging_translator
       "exam_date" "xx" after_exam_request).1 = "Exams start in May."
  ∧ (generate_response_with_gemini sample_kb scripted_llm tagging_translator
       "exam_date" "en" after_exam_request).1 = "The date sheet is on the portal."
  ∧ (generate_response_with_gemini sample_kb scripted_llm tagging_translator
       "exam_date" "xx" after_exam_request).1
    ≠ (generate_response_with_gemini sample_kb scripted_llm tagging_translator
         "exam_date" "en" after_exam_request).1.
Proof.
  split; [apply LANG_MAP_lookup_None; vm_compute; reflexivity|].
  split; [vm_compute; reflexivity|].
  split; [vm_compute; reflexivity|].
  vm_compute. discriminate.
Qed.

(** The theorem of C6 for the code "fr" after two requests. *)
Lemma unsupported_language_same_as_english_witness :
  let s := run sample_kb scripted_llm tagging_translator
             [("exam", "hi"); ("exam", "fr")] (initial_state exam_script) in
  (generate_response_with_gemini sample_kb scripted_llm tagging_translator
     "exam" "fr" s).1
  = (generate_response_with_gemini sample_kb scripted_llm tagging_translator
       "exam" "en" s).1.
Proof.
  apply (unsupported_language_same_as_english sample_kb scripted_llm
           tagging_translator exam_script [("exam", "hi"); ("exam", "fr")]
           "exam" "fr").
  - repeat constructor.
  - reflexivity.
  - apply LANG_MAP_lookup_None. vm_compute. reflexivity.
Defined.

(** The theorem of C7 for a request with an empty query. *)
Lemma chat_missing_query_asks_for_input_witness :
  let handle := chat sample_kb scripted_llm tagging_translator in
  let req := Form (Some "") (Some "hi") in
  handle req library_cached = (Jsonify "Please enter a question.", library_cached)
  ∧ response_cache (handle req library_cached).2 = response_cache library_cached
  ∧ llm_calls (handle req library_cached).2 = llm_calls library_cached
  ∧ translate_calls (handle req library_cached).2 = translate_calls library_cached.
Proof.
  apply (chat_missing_query_asks_for_input sample_kb scripted_llm
           tagging_translator (Form (Some "") (Some "hi")) library_cached).
  right. reflexivity.
Defined.

(** The theorem of C8: the English answer about exams survives two more
    requests. *)
Lemma cache_entries_persist_witness :
  response_cache
    (run sample_kb scripted_llm tagging_translator
       ([("exam", "en")] ++ [("exam", "hi"); ("date sheet", "en")])
       (initial_state exam_script))
    !! make_key "exam" "en"
  = Some "Exams start in May.".
Proof.
  apply (cache_entries_persist sample_kb scripted_llm tagging_translator
           [("exam", "en")] [("exam", "hi"); ("date sheet", "en")]
           (initial_state exam_script)).
  vm_compute. reflexivity.
Defined.

(** C9, counterexample: "xx" is no supported code, and after the request
    (exam, date_xx) the call for (exam_date, xx) is a hit that stores
    nothing: the English key of "exam_date" stays empty and the key of the
    call holds the answer about "exam", not the one the model gives for
    "exam_date". *)
Lemma unsupported_language_hit_files_nothing :
  ("xx" ∉ supported_codes)
  ∧ generate_response_with_gemini sample_kb scripted_llm tagging_translator
      "exam_date" "xx" after_exam_request
    = ("Exams start in May.", after_exam_request)
  ∧ response_cache after_exam_request !! make_key "exam_date" "en" = None
  ∧ response_cache after_exam_request !! make_key "exam" "en"
    = Some "Exams start in May."
  ∧ (generate_response_with_gemini sample_kb scripted_llm tagging_translator
       "exam_date" "en" after_exam_request).1
    = "The date sheet is on the portal.".
Proof.
  split; [apply LANG_MAP_lookup_None; vm_compute; reflexivity|].
  repeat split; vm_compute; reflexivity.
Qed.

(** The theorem of C9 for the code "fr": on a fresh process, and as a hit
    after the same request has been served. *)
Lemma unsupported_language_no_translator_english_filed_witness :
  let resolve :=
    generate_response_with_gemini sample_kb scripted_llm tagging_translator in
  let fresh := initial_state exam_script in
  let served := run sample_kb scripted_llm tagging_translator
                  [("exam", "fr")] (initial_state exam_script) in
  translate_calls (resolve "exam" "fr" fresh).2 = 0
  ∧ response_cache (resolve "exam" "fr" fresh).2 !! make_key "exam" "fr"
    = Some "Exams start in May."
  ∧ response_cache (resolve "exam" "fr" served).2 !! make_key "exam" "en"
    = Some (resolve "exam" "fr" served).1
  ∧ response_cache (resolve "exam" "fr" served).2 !! make_key "exam" "fr"
    = Some (resolve "exam" "fr" served).1.
Proof.
  destruct (unsupported_language_no_translator_english_filed sample_kb
              scripted_llm tagging_translator exam_script [("exam", "fr")]
              "exam" "fr" (initial_state exam_script))
    as ((_ & Hcalls) & Hmiss & Hreached).
  - apply LANG_MAP_lookup_None. vm_compute. reflexivity.
  - split; [exact Hcalls|].
    split; [exact (proj2 (Hmiss eq_refl))|].
    apply Hreached; [repeat constructor|reflexivity].
Defined.

(** The theorem of C10 for a request of three blanks on a fresh process: the
    model is called once and its answer is the response. *)
Lemma chat_missing_exactly_absent_or_empty_witness :
  let handle := chat sample_kb scripted_llm tagging_translator in
  llm_calls (handle (Form (Some "   ") None) (initial_state exam_script)).2 = 1
  ∧ response (handle (Form (Some "   ") None) (initial_state exam_script)).1
    = "Exams start in May.".
Proof.
  destruct (chat_missing_exactly_absent_or_empty sample_kb scripted_llm
              tagging_translator (Form (Some "   ") None)
              (initial_state exam_script)) as [Hchat Hblank].
  destruct (Hblank None) as [Hr Hcalls].
  split.
  - apply Hcalls; vm_compute; reflexivity.
  - rewrite Hr. vm_compute. reflexivity.
Defined.

(** ** The further properties on concrete requests *)

(** X1 on a fresh process whose model times out. *)
Lemma model_failure_apology_cached_witness :
  generate_response_with_gemini sample_kb scripted_llm tagging_translator
    "exam" "en" (initial_state [LlmException "timeout"])
  = ("Sorry, I'm having trouble connecting right now.",
     State (<[make_key "exam" "en"
               := "Sorry, I'm having trouble connecting right now."]> ∅)
           []
           [EvLlmInvoke (make_prompt sample_kb "exam");
            EvPrint "Error calling Gemini API: timeout"]).
Proof.
  exact (model_failure_apology_cached sample_kb scripted_llm tagging_translator
           "exam" (initial_state [LlmException "timeout"]) "timeout" []
           eq_refl eq_refl).
Defined.

(** X2 for the query "exam" asked in Hindi on a fresh process. *)
Lemma full_miss_generates_then_translates_witness :
  generate_response_with_gemini sample_kb scripted_llm tagging_translator
    "exam" "hi" (initial_state exam_script)
  = ("[hi] Exams start in May.",
     State (<[make_key "exam" "hi" := "[hi] Exams start in May."]>
              (<[make_key "exam" "en" := "Exams start in May."]> ∅))
           [LlmContent "The date sheet is on the portal."]
           [EvLlmInvoke (make_prompt sample_kb "exam");
            EvTranslate "hi" "Exams start in May."]).
Proof.
  apply (full_miss_generates_then_translates sample_kb scripted_llm
           tagging_translator "exam" "hi" (initial_state exam_script)
           "Exams start in May." "[hi] Exams start in May."
           [LlmContent "The date sheet is on the portal."]
           [LlmContent "The date sheet is on the portal."]).
  - reflexivity.
  - reflexivity.
  - apply LANG_MAP_lookup_Some with (t := "hi"). vm_compute. reflexivity.
  - discriminate.
  - reflexivity.
  - reflexivity.
Defined.

(** X3 for the query "exam" asked in Hindi while the quota is used up. *)
Lemma model_failure_apology_is_translated_witness :
  generate_response_with_gemini sample_kb scripted_llm tagging_translator
    "exam" "hi" (initial_state [LlmResourceExhausted "429 quota"])
  = ("[hi] Sorry, the API quota is exceeded. Try again later.",
     State (<[make_key "exam" "hi"
               := "[hi] Sorry, the API quota is exceeded. Try again later."]>
              (<[make_key "exam" "en" := quota_apology]> ∅))
           []
           [EvLlmInvoke (make_prompt sample_kb "exam");
            EvPrint "Gemini quota exceeded! Details: 429 quota";
            EvTranslate "hi" quota_apology]).
Proof.
  apply (model_failure_apology_is_translated sample_kb scripted_llm
           tagging_translator "exam" "hi"
           (initial_state [LlmResourceExhausted "429 quota"])
           (LlmResourceExhausted "429 quota") "429 quota" quota_apology
           "Gemini quota exceeded! Details: 429 quota"
           "[hi] Sorry, the API quota is exceeded. Try again later." [] []).
  - reflexivity.
  - reflexivity.
  - apply LANG_MAP_lookup_Some with (t := "hi"). vm_compute. reflexivity.
  - discriminate.
  - left. repeat split.
  - reflexivity.
  - reflexivity.
Defined.

(** X4 with the translator down and the English answer cached. *)
Lemma translation_failure_is_cached_witness :
  generate_response_with_gemini sample_kb scripted_llm failing_translator
    "library hours" "hi" library_cached
  = ("Open 9 to 5.",
     State (<[make_key "library hours" "hi" := "Open 9 to 5."]>
              (response_cache library_cached))
           []
           [EvTranslate "hi" "Open 9 to 5.";
            EvPrint "Translation failed for hi: connection refused"]).
Proof.
  apply (translation_failure_is_cached sample_kb scripted_llm
           failing_translator "library hours" "hi" "Open 9 to 5."
           library_cached "connection refused" []).
  - apply LANG_MAP_lookup_Some with (t := "hi"). vm_compute. reflexivity.
  - vm_compute. reflexivity.
  - vm_compute. reflexivity.
  - reflexivity.
Defined.

(** X7: the entry about the library is untouched by a request about
    exams. *)
Lemma resolve_touches_only_its_keys_witness :
  response_cache
    (generate_response_with_gemini sample_kb scripted_llm tagging_translator
       "exam" "hi" library_cached).2 !! make_key "library hours" "en"
  = response_cache library_cached !! make_key "library hours" "en".
Proof.
  apply (resolve_touches_only_its_keys sample_kb scripted_llm
           tagging_translator "exam" "hi" library_cached
           (make_key "library hours" "en"));
    intros H; vm_compute in H; discriminate H.
Defined.

(** X9: asking about exams in English once more after two requests. *)
Lemma replaying_served_requests_changes_nothing_witness :
  run sample_kb scripted_llm tagging_translator
    ([("exam", "en"); ("exam", "hi")] ++ [("exam", "en")])
    (initial_state exam_script)
  = run sample_kb scripted_llm tagging_translator
      [("exam", "en"); ("exam", "hi")] (initial_state exam_script).
Proof.
  apply (replaying_served_requests_changes_nothing sample_kb scripted_llm
           tagging_translator [("exam", "en"); ("exam", "hi")] [("exam", "en")]
           (initial_state exam_script)).
  intros c Hc. apply list_elem_of_singleton in Hc as ->. left.
Defined.

(** X10: after the query "exam" was asked in Hindi on a fresh process, the
    English request is a hit. *)
Lemma english_is_cached_by_any_miss_witness :
  let first := generate_response_with_gemini sample_kb scripted_llm
                 tagging_translator "exam" "hi" (initial_state exam_script) in
  let second := generate_response_with_gemini sample_kb scripted_llm
                  tagging_translator "exam" "en" first.2 in
  second.2 = first.2
  ∧ response_cache first.2 !! make_key "exam" "en" = Some second.1.
Proof.
  apply (english_is_cached_by_any_miss sample_kb scripted_llm
           tagging_translator "exam" "hi" (initial_state exam_script)).
  reflexivity.
Defined.

(** X15 for a request about exams without a language field. *)
Lemma chat_reply_is_cached_witness :
  let r := chat sample_kb scripted_llm tagging_translator
             (Form (Some "exam") None) (initial_state exam_script) in
  response_cache r.2 !! make_key "exam" "en" = Some (response r.1)
  ∧ translate_calls r.2 = 0.
Proof.
  destruct (chat_reply_is_cached sample_kb scripted_llm tagging_translator
              (Form (Some "exam") None) "exam" (initial_state exam_script)
              eq_refl) as [Hreply Hcalls]; [discriminate|].
  split; [exact Hreply|exact (Hcalls eq_refl)].
Defined.

(** X16 at two requests in Hindi. *)
Lemma make_key_injective_same_length_witness :
  "exam" = "exam" ∧ "hi" = "hi".
Proof.
  apply (make_key_injective_same_length "exam" "hi" "exam" "hi");
    reflexivity.
Defined.

(** X17 at the query "exam". *)
Lemma make_prompt_injective_witness : "exam" = "exam".
Proof.
  apply (make_prompt_injective sample_kb "exam" "exam"). reflexivity.
Defined.
